(** * create-test-images.py: the fixture generator

    The script is a straight line of library calls: [os.makedirs], then for
    each of three fixtures [Image.new], one to three [ImageDraw] calls,
    [Image.save] and [print].  The development embeds the script as a
    program in a small state-and-exception monad over a world made of a
    file system and a console, on top of models of the library calls the
    script makes.  Which pixels a shape covers is the rasteriser's business
    and is kept behind an interface; a geometric instance is given for the
    statements that speak about particular pixels. *)

From Stdlib Require Import ZArith Lia String Ascii List.
From stdpp Require Import base option list gmap strings.

Local Open Scope string_scope.
Local Open Scope Z_scope.

(** ** Exceptions the library calls raise *)

Inductive exn : Type :=
  | ValueError
  | FileExistsError
  | FileNotFoundError
  | NotADirectoryError
  | IsADirectoryError
  | PermissionError.

(** A pure library call either raises or returns. *)
Definition result (A : Type) : Type := (exn + A)%type.

Definition bind_result {A B} (r : result A) (k : A → result B) : result B :=
  match r with
  | inl e => inl e
  | inr a => k a
  end.

(** ** Colours: [ImageColor.getrgb] *)

Definition rgb : Type := (Z * Z * Z)%type.

(** [int(c, 16)] on one character, after [color.lower()]. *)
Definition hex_digit (c : ascii) : option Z :=
  let n := Z.of_nat (nat_of_ascii c) in
  if (48 <=? n) && (n <=? 57) then Some (n - 48)
  else if (97 <=? n) && (n <=? 102) then Some (n - 87)
  else if (65 <=? n) && (n <=? 70) then Some (n - 55)
  else None.

Definition hex_byte (hi lo : ascii) : option Z :=
  match hex_digit hi, hex_digit lo with
  | Some h, Some l => Some (16 * h + l)
  | _, _ => None
  end.

(** The [#rrggbb] form: [int(color[1:3], 16), int(color[3:5], 16),
    int(color[5:7], 16)]. *)
Definition parse_hex6 (s : string) : option rgb :=
  match list_ascii_of_string s with
  | [h; r1; r0; g1; g0; b1; b0] =>
      if Ascii.eqb h "#" then
        match hex_byte r1 r0, hex_byte g1 g0, hex_byte b1 b0 with
        | Some r, Some g, Some b => Some (r, g, b)
        | _, _, _ => None
        end
      else None
  | _ => None
  end.

(** The named colours, abridged to a few entries of the library's table. *)
Definition colormap : list (string * string) :=
  [("black", "#000000"); ("white", "#ffffff"); ("red", "#ff0000");
   ("lime", "#00ff00"); ("blue", "#0000ff")].

Fixpoint colormap_get (tbl : list (string * string)) (name : string) : option string :=
  match tbl with
  | [] => None
  | (k, v) :: tbl' => if String.eqb k name then Some v else colormap_get tbl' name
  end.

(** A name is looked up first, then the string is read as [#rrggbb]; the
    other notations of the library are not used by the script and are
    reported as unknown here. *)
Definition getrgb (color : string) : result rgb :=
  let spec := match colormap_get colormap color with
              | Some hex => hex
              | None => color
              end in
  match parse_hex6 spec with
  | Some c => inr c
  | None => inl ValueError
  end.

(** ** Images *)

(** An image is its mode, its size (width, height) and its pixels, row
    after row. *)
Record Image : Type := mkImage {
  Image_mode : string;
  Image_size : Z * Z;
  Image_data : list rgb
}.

Definition Image_width (im : Image) : Z := fst (Image_size im).
Definition Image_height (im : Image) : Z := snd (Image_size im).

(** The buffer holds one pixel per position. *)
Definition Image_wf (im : Image) : Prop :=
  0 < Image_width im ∧ 0 < Image_height im ∧
  Z.of_nat (length (Image_data im)) = Image_width im * Image_height im.

(** A buffer of the given size filled with one colour. *)
Definition Image_fill (mode : string) (size : Z * Z) (c : rgb) : Image :=
  mkImage mode size (replicate (Z.to_nat (fst size * snd size)) c).

(** [Image.new(mode, size, color)]; only the mode the script asks for is
    modelled. *)
Definition Image_new (mode : string) (size : Z * Z) (color : string) : result Image :=
  if String.eqb mode "RGB" then
    bind_result (getrgb color) (λ c, inr (Image_fill mode size c))
  else inl ValueError.

Definition in_bounds (im : Image) (x y : Z) : bool :=
  (0 <=? x) && (x <? Image_width im) && (0 <=? y) && (y <? Image_height im).

(** [im.getpixel((x, y))]; [None] stands for the [IndexError] outside the
    image. *)
Definition Image_getpixel (im : Image) (xy : Z * Z) : option rgb :=
  let '(x, y) := xy in
  if in_bounds im x y then Image_data im !! Z.to_nat (y * Image_width im + x)
  else None.

(** Painting a set of pixels with one ink: a covered pixel takes the ink,
    whatever it held, and the others keep their value. *)
Definition paint (cover : Z → Z → bool) (ink : rgb) (im : Image) : Image :=
  mkImage (Image_mode im) (Image_size im)
    (imap (λ i p, if cover (Z.of_nat i `mod` Image_width im)
                           (Z.of_nat i `div` Image_width im)
                  then ink else p)
          (Image_data im)).

Arguments Image_fill : simpl never.
Arguments paint : simpl never.

(** ** The rasteriser: which pixels a shape covers

    [ImageDraw] is a thin layer over the drawing core, which decides the set
    of pixels of an ellipse or of a polygon.  [draw_ellipse xy fill width x y]
    tells whether the core's [draw_ellipse(xy, ink, fill, width)] sets pixel
    [(x, y)], and likewise for [draw_polygon]. *)

Definition box : Type := (Z * Z * Z * Z)%type.
Definition point : Type := (Z * Z)%type.

Class Rasterizer : Type := {
  draw_ellipse : box → bool → Z → Z → Z → bool;
  draw_polygon : list point → bool → Z → Z → Z → bool
}.

(** *** A geometric rasteriser

    A pixel belongs to a shape when its centre does: the closed ellipse
    inscribed in the bounding box, the ring between that ellipse and the one
    inscribed in the box shrunk by the width, the closed polygon (even-odd
    rule), the points at half the width or less from an edge.  All tests are
    in integers. *)

Definition sq (a : Z) : Z := a * a.

Definition in_box (b : box) (x y : Z) : bool :=
  let '(x0, y0, x1, y1) := b in
  (x0 <=? x) && (x <=? x1) && (y0 <=? y) && (y <=? y1).

(** Twice the offset from the centre, against the full axes. *)
Definition ellipse_lhs (b : box) (x y : Z) : Z :=
  let '(x0, y0, x1, y1) := b in
  sq (2 * x - (x0 + x1)) * sq (y1 - y0) + sq (2 * y - (y0 + y1)) * sq (x1 - x0).

Definition ellipse_rhs (b : box) : Z :=
  let '(x0, y0, x1, y1) := b in sq (x1 - x0) * sq (y1 - y0).

Definition in_ellipse (b : box) (x y : Z) : bool :=
  in_box b x y && (ellipse_lhs b x y <=? ellipse_rhs b).

Definition strictly_in_ellipse (b : box) (x y : Z) : bool :=
  in_box b x y && (ellipse_lhs b x y <? ellipse_rhs b).

Definition shrink (b : box) (w : Z) : box :=
  let '(x0, y0, x1, y1) := b in (x0 + w, y0 + w, x1 - w, y1 - w).

Definition in_ellipse_ring (b : box) (w : Z) (x y : Z) : bool :=
  in_ellipse b x y && negb (strictly_in_ellipse (shrink b w) x y).

(** The edges of a closed polygon, the last point joined to the first. *)
Definition edges (pts : list point) : list (point * point) :=
  match pts with
  | [] => []
  | p :: rest => zip pts (rest ++ [p])
  end.

Definition cross (a b p : point) : Z :=
  (fst b - fst a) * (snd p - snd a) - (snd b - snd a) * (fst p - fst a).

Definition on_segment (e : point * point) (p : point) : bool :=
  let '(a, b) := e in
  (cross a b p =? 0)
  && (Z.min (fst a) (fst b) <=? fst p) && (fst p <=? Z.max (fst a) (fst b))
  && (Z.min (snd a) (snd b) <=? snd p) && (snd p <=? Z.max (snd a) (snd b)).

(** The edge crosses the horizontal ray leaving [p] towards larger [x]. *)
Definition crosses_ray (e : point * point) (p : point) : bool :=
  let '(a, b) := e in
  if (snd a <=? snd p) && (snd p <? snd b) then 0 <? cross a b p
  else if (snd b <=? snd p) && (snd p <? snd a) then cross a b p <? 0
  else false.

Definition in_polygon (pts : list point) (x y : Z) : bool :=
  existsb (λ e, on_segment e (x, y)) (edges pts)
  || Nat.odd (length (filter (λ e, crosses_ray e (x, y) = true) (edges pts))).

(** Four times the squared distance from [p] to the segment, times the
    squared length [l2] of the segment squared, compared with the squared
    width on the same scale. *)
Definition near_segment (w : Z) (e : point * point) (p : point) : bool :=
  let '(a, b) := e in
  let dx := fst b - fst a in
  let dy := snd b - snd a in
  let l2 := sq dx + sq dy in
  let t := Z.max 0 (Z.min l2 (dx * (fst p - fst a) + dy * (snd p - snd a))) in
  if l2 =? 0 then 4 * (sq (fst p - fst a) + sq (snd p - snd a)) <=? sq w
  else 4 * (sq ((fst p - fst a) * l2 - t * dx) + sq ((snd p - snd a) * l2 - t * dy))
       <=? sq w * sq l2.

Definition near_polygon (pts : list point) (w : Z) (x y : Z) : bool :=
  existsb (λ e, near_segment w e (x, y)) (edges pts).

Definition geometric : Rasterizer := {|
  draw_ellipse b fill w x y :=
    if fill then in_ellipse b x y else in_ellipse_ring b w x y;
  draw_polygon pts fill w x y :=
    if fill then in_polygon pts x y else near_polygon pts w x y
|}.

(** ** [ImageDraw]: the drawing calls of the script *)

Definition white : rgb := (255, 255, 255).

Definition getrgb_opt (color : option string) : result (option rgb) :=
  match color with
  | None => inr None
  | Some s => bind_result (getrgb s) (λ c, inr (Some c))
  end.

(** [_getink(ink, fill)]: the outline ink and the fill ink; with neither
    given the draw object's default ink is used as the outline. *)
Definition getink (ink fill : option string) : result (option rgb * option rgb) :=
  match ink, fill with
  | None, None => inr (Some white, None)
  | _, _ =>
      bind_result (getrgb_opt ink) (λ i,
      bind_result (getrgb_opt fill) (λ f, inr (i, f)))
  end.

Definition rgb_eqb (a b : rgb) : bool :=
  let '(r1, g1, b1) := a in
  let '(r2, g2, b2) := b in
  (r1 =? r2) && (g1 =? g2) && (b1 =? b2).

(** [ink is not None and ink != fill_ink and width != 0] *)
Definition draws_outline (ink fill_ink : option rgb) (width : Z) : option rgb :=
  match ink with
  | None => None
  | Some i =>
      let differs := match fill_ink with
                     | Some f => negb (rgb_eqb i f)
                     | None => true
                     end in
      if differs && negb (width =? 0) then Some i else None
  end.

Definition paint_opt (cover : Z → Z → bool) (ink : option rgb) (im : Image) : Image :=
  match ink with
  | Some c => paint cover c im
  | None => im
  end.

Section Drawing.
Context {R : Rasterizer}.

(** [draw.ellipse(xy, fill, outline, width)]: the filled ellipse first,
    then the outline over it.  The draw object shares the image's buffer;
    here the image drawn on is returned. *)
Definition ellipse (im : Image) (xy : box) (fill outline : option string)
    (width : Z) : result Image :=
  bind_result (getink outline fill) (λ '(ink, fill_ink),
    let im := paint_opt (draw_ellipse xy true 0) fill_ink im in
    inr (paint_opt (draw_ellipse xy false width) (draws_outline ink fill_ink width) im)).

(** [draw.polygon(xy, fill, outline, width)]: the filled polygon, then the
    outline; an outline wider than one pixel is drawn with width
    [2 * width - 1] and kept only where the filled polygon is, so that it
    does not grow outwards. *)
Definition polygon_outline (xy : list point) (width : Z) (x y : Z) : bool :=
  if width =? 1 then draw_polygon xy false width x y
  else draw_polygon xy true 0 x y && draw_polygon xy false (width * 2 - 1) x y.

Definition polygon (im : Image) (xy : list point) (fill outline : option string)
    (width : Z) : result Image :=
  bind_result (getink outline fill) (λ '(ink, fill_ink),
    let im := paint_opt (draw_polygon xy true 0) fill_ink im in
    inr (paint_opt (polygon_outline xy width) (draws_outline ink fill_ink width) im)).

End Drawing.

(** ** The world: a file system and a console *)

(** What a file holds: the PNG encoding of an image, kept as the image it
    decodes to, or any other bytes. *)
Inductive content : Type :=
  | PNG (im : Image)
  | Blob (bytes : list Z).

(** A directory or a regular file, each with its write permission. *)
Inductive node : Type :=
  | Dir (writable : bool)
  | File (writable : bool) (c : content).

Record World : Type := mkWorld {
  fs : gmap string node;
  stdout : list string
}.

Definition set_fs (w : World) (m : gmap string node) : World :=
  mkWorld m (stdout w).

(** ** The script monad: state and exceptions *)

Inductive outcome (A : Type) : Type :=
  | Ok (a : A) (w : World)
  | Raise (e : exn) (w : World).
Arguments Ok {A} a w.
Arguments Raise {A} e w.

Definition Script (A : Type) : Type := World → outcome A.

Definition ret {A} (a : A) : Script A := λ w, Ok a w.

Definition bind {A B} (m : Script A) (k : A → Script B) : Script B :=
  λ w, match m w with
       | Ok a w' => k a w'
       | Raise e w' => Raise e w'
       end.

Definition raise {A} (e : exn) : Script A := λ w, Raise e w.

(** A pure library call made from the script. *)
Definition call {A} (r : result A) : Script A :=
  match r with
  | inl e => raise e
  | inr a => ret a
  end.

(** [try: m except e: h], for the exceptions [catches] selects. *)
Definition try_except {A} (m : Script A) (catches : exn → bool) (h : exn → Script A) : Script A :=
  λ w, match m w with
       | Ok a w' => Ok a w'
       | Raise e w' => if catches e then h e w' else Raise e w'
       end.

Declare Scope script_scope.
Delimit Scope script_scope with script.
Notation "x <- m ; k" := (bind m (λ x, k))
  (at level 100, m at next level, right associativity) : script_scope.
Notation "m ;; k" := (bind m (λ _, k))
  (at level 100, right associativity) : script_scope.

Definition world_of {A} (o : outcome A) : World :=
  match o with
  | Ok _ w => w
  | Raise _ w => w
  end.

(** ** [posixpath] and [os] *)

(** [(p[:i], p[i:])] for [i = p.rfind('/') + 1]. *)
Fixpoint rsplit_sep (p : list ascii) : list ascii * list ascii :=
  match p with
  | [] => ([], [])
  | c :: r =>
      match rsplit_sep r with
      | ([], _) => if Ascii.eqb c "/" then ([c], r) else ([], c :: r)
      | (h, t) => (c :: h, t)
      end
  end.

(** [head.rstrip('/')] *)
Fixpoint rstrip_sep (p : list ascii) : list ascii :=
  match p with
  | [] => []
  | c :: r =>
      match rstrip_sep r with
      | [] => if Ascii.eqb c "/" then [] else [c]
      | r' => c :: r'
      end
  end.

(** [posixpath.split]: the head loses its trailing slashes unless it is
    made of slashes only. *)
Definition path_split (p : string) : string * string :=
  let '(h, t) := rsplit_sep (list_ascii_of_string p) in
  let h' := if forallb (Ascii.eqb "/") h then h else rstrip_sep h in
  (string_of_list_ascii h', string_of_list_ascii t).

Definition path_exists (m : gmap string node) (p : string) : bool :=
  match m !! p with
  | Some _ => true
  | None => false
  end.

Definition path_isdir (m : gmap string node) (p : string) : bool :=
  match m !! p with
  | Some (Dir _) => true
  | _ => false
  end.

(** [os.mkdir(name)]: the name must be free and its parent a directory one
    may write to. *)
Definition os_mkdir (name : string) : Script unit :=
  λ w, match fs w !! name with
       | Some _ => Raise FileExistsError w
       | None =>
           match fs w !! (fst (path_split name)) with
           | None => Raise FileNotFoundError w
           | Some (File _ _) => Raise NotADirectoryError w
           | Some (Dir false) => Raise PermissionError w
           | Some (Dir true) => Ok tt (set_fs w (<[name := Dir true]> (fs w)))
           end
       end.

Definition is_FileExistsError (e : exn) : bool :=
  match e with
  | FileExistsError => true
  | _ => false
  end.

(** The last step of [os.makedirs]: [mkdir], whose error is let through
    only if [exist_ok] is off or the name is not a directory. *)
Definition mkdir_leaf (name : string) (exist_ok : bool) : Script unit :=
  try_except (os_mkdir name) (λ _, true)
    (λ e w, if negb exist_ok || negb (path_isdir (fs w) name)
            then Raise e w else Ok tt w).

(** [os.makedirs(name, exist_ok)]: the missing ancestors first, then the
    leaf.  The recursion is on the head of the path, which gets shorter;
    [fuel] bounds it. *)
Fixpoint makedirs (fuel : nat) (name : string) (exist_ok : bool) : Script unit :=
  λ w,
  let '(head, tail) := path_split name in
  let '(head, tail) := if String.eqb tail "" then path_split head else (head, tail) in
  if negb (String.eqb head "") && negb (String.eqb tail "")
     && negb (path_exists (fs w) head)
  then
    match fuel with
    | O => mkdir_leaf name exist_ok w
    | S fuel' =>
        bind (try_except (makedirs fuel' head exist_ok) is_FileExistsError (λ _, ret tt))
             (λ _, if String.eqb tail "." then ret tt else mkdir_leaf name exist_ok) w
    end
  else mkdir_leaf name exist_ok w.

(** A path has fewer ancestors than characters. *)
Definition os_makedirs (name : string) (exist_ok : bool) : Script unit :=
  makedirs (String.length name) name exist_ok.

(** [print(s)] *)
Definition print (s : string) : Script unit :=
  λ w, Ok tt (mkWorld (fs w) (stdout w ++ [s])).

(** [open(path, "w+b")]: the error it raises, if any.  An existing file
    is truncated if one may write to it; a new one needs a parent
    directory one may write to. *)
Definition open_w (m : gmap string node) (path : string) : option exn :=
  match m !! path with
  | Some (Dir _) => Some IsADirectoryError
  | Some (File false _) => Some PermissionError
  | Some (File true _) => None
  | None =>
      match m !! (fst (path_split path)) with
      | None => Some FileNotFoundError
      | Some (File _ _) => Some NotADirectoryError
      | Some (Dir false) => Some PermissionError
      | Some (Dir true) => None
      end
  end.

(** [im.save(path)] for a path ending in [.png]: the file is opened for
    writing and receives the encoded image. *)
Definition Image_save (im : Image) (path : string) : Script unit :=
  λ w, match open_w (fs w) path with
       | Some e => Raise e w
       | None => Ok tt (set_fs w (<[path := File true (PNG im)]> (fs w)))
       end.

(** [Image.open(path)] followed by decoding: the image a PNG file holds. *)
Definition Image_open (w : World) (path : string) : option Image :=
  match fs w !! path with
  | Some (File _ (PNG im)) => Some im
  | _ => None
  end.

(** The regular file at a path, if there is one. *)
Definition file_at (w : World) (path : string) : option (bool * content) :=
  match fs w !! path with
  | Some (File b c) => Some (b, c)
  | _ => None
  end.

(** A file system is a tree: every entry but the root lies in a
    directory. *)
Definition fs_wf (m : gmap string node) : Prop :=
  map_Forall (λ p _, p = "/" ∨ path_isdir m (fst (path_split p)) = true) m.

(** ** The script *)

Section Generator.
Context {R : Rasterizer}.
Local Open Scope script_scope.

Definition star_points : list point :=
  [ (200, 50);
    (220, 150);
    (300, 150);
    (240, 210);
    (270, 300);
    (200, 250);
    (130, 300);
    (160, 210);
    (100, 150);
    (180, 150) ].

Definition main : Script unit :=
  os_makedirs "/tmp/test-images" true;;
  img1 <- call (Image_new "RGB" (400, 400) "black");
  img1 <- call (ellipse img1 (100, 100, 300, 300) (Some "#667eea") (Some "#764ba2") 5);
  Image_save img1 "/tmp/test-images/image1.png";;
  print "Created image1.png";;
  img2 <- call (Image_new "RGB" (400, 400) "black");
  img2 <- call (polygon img2 star_points (Some "#f093fb") (Some "#f5576c") 5);
  Image_save img2 "/tmp/test-images/image2.png";;
  print "Created image2.png";;
  img3 <- call (Image_new "RGB" (400, 400) "black");
  img3 <- call (ellipse img3 (80, 100, 180, 200) (Some "#ff5252") None 1);
  img3 <- call (ellipse img3 (220, 100, 320, 200) (Some "#ff5252") None 1);
  img3 <- call (polygon img3 [(80, 150); (320, 150); (200, 330)] (Some "#ff5252") None 1);
  Image_save img3 "/tmp/test-images/image3.png";;
  print "Created image3.png";;
  print (String "010" "Test images created in /tmp/test-images/").

End Generator.

(** ** Names for what the script computes *)

Definition output_dir : string := "/tmp/test-images".
Definition image1_path : string := "/tmp/test-images/image1.png".
Definition image2_path : string := "/tmp/test-images/image2.png".
Definition image3_path : string := "/tmp/test-images/image3.png".

Definition black : rgb := (0, 0, 0).
Definition circle_fill : rgb := (102, 126, 234).
Definition circle_outline : rgb := (118, 75, 162).
Definition star_fill : rgb := (240, 147, 251).
Definition star_outline : rgb := (245, 87, 108).
Definition heart_fill : rgb := (255, 82, 82).

Definition circle_box : box := (100, 100, 300, 300).
Definition heart_left : box := (80, 100, 180, 200).
Definition heart_right : box := (220, 100, 320, 200).
Definition heart_triangle : list point := [(80, 150); (320, 150); (200, 330)].

(** The lines the script prints, in order. *)
Definition console_lines : list string :=
  ["Created image1.png"; "Created image2.png"; "Created image3.png";
   String "010" "Test images created in /tmp/test-images/"].

(** A shape operation as the data model has it, and the application of a
    list of them in order; the script itself has no such list, its calls
    are written one after the other. *)
Inductive shape_op : Type :=
  | EllipseOp (xy : box) (fill outline : option string) (width : Z)
  | PolygonOp (xy : list point) (fill outline : option string) (width : Z).

Section Canvases.
Context {R : Rasterizer}.

(** The canvas of each fixture at the time it is saved. *)
Definition blank : Image := Image_fill "RGB" (400, 400) black.

Definition canvas1 : Image :=
  paint (draw_ellipse circle_box false 5) circle_outline
    (paint (draw_ellipse circle_box true 0) circle_fill blank).

Definition canvas2 : Image :=
  paint (polygon_outline star_points 5) star_outline
    (paint (draw_polygon star_points true 0) star_fill blank).

(** The heart after each of its draws. *)
Definition heart1 : Image := paint (draw_ellipse heart_left true 0) heart_fill blank.
Definition heart2 : Image := paint (draw_ellipse heart_right true 0) heart_fill heart1.
Definition canvas3 : Image := paint (draw_polygon heart_triangle true 0) heart_fill heart2.

Definition apply_op (im : Image) (op : shape_op) : result Image :=
  match op with
  | EllipseOp xy fill outline width => ellipse im xy fill outline width
  | PolygonOp xy fill outline width => polygon im xy fill outline width
  end.

Fixpoint apply_ops (im : Image) (ops : list shape_op) : result Image :=
  match ops with
  | [] => inr im
  | op :: ops' => bind_result (apply_op im op) (λ im', apply_ops im' ops')
  end.

Definition heart_ops : list shape_op :=
  [ EllipseOp heart_left (Some "#ff5252") None 1;
    EllipseOp heart_right (Some "#ff5252") None 1;
    PolygonOp heart_triangle (Some "#ff5252") None 1 ].

(** The file system after a run in which every call returned, given the
    file system [os.makedirs] left. *)
Definition written (m : gmap string node) : gmap string node :=
  <[image3_path := File true (PNG canvas3)]>
    (<[image2_path := File true (PNG canvas2)]>
      (<[image1_path := File true (PNG canvas1)]> m)).

(** The script with each canvas replaced by its value: the directory,
    then for each fixture the save and the message, then the summary. *)
Definition fixtures : Script unit :=
  bind (Image_save canvas1 image1_path) (λ _,
  bind (print "Created image1.png") (λ _,
  bind (Image_save canvas2 image2_path) (λ _,
  bind (print "Created image2.png") (λ _,
  bind (Image_save canvas3 image3_path) (λ _,
  bind (print "Created image3.png") (λ _,
  print (String "010" "Test images created in /tmp/test-images/"))))))).

Definition main_steps : Script unit :=
  bind (os_makedirs output_dir true) (λ _, fixtures).

(** The world once the first fixture, the first two, all three are
    written, counted from the world [os.makedirs] left. *)
Definition after1 (w : World) : World :=
  mkWorld (<[image1_path := File true (PNG canvas1)]> (fs w))
          (stdout w ++ ["Created image1.png"]).

Definition after2 (w : World) : World :=
  mkWorld (<[image2_path := File true (PNG canvas2)]>
            (<[image1_path := File true (PNG canvas1)]> (fs w)))
          (stdout w ++ ["Created image1.png"; "Created image2.png"]).

Definition final (w : World) : World :=
  mkWorld (written (fs w)) (stdout w ++ console_lines).

End Canvases.

(** Worlds to run the script in: one where the output directory is there
    with a stale fixture and a file of someone else, one where only the
    root exists, one where the second fixture's path is taken by a
    directory; and the bare world once [os.makedirs] has run. *)
Definition notes : node := File true (Blob [104; 105]).

Definition world_used : World :=
  mkWorld (<["/tmp/test-images/notes.txt" := notes]>
            (<["/tmp/test-images/image1.png" := File true (Blob [0])]>
              (<["/tmp/test-images" := Dir true]>
                (<["/tmp" := Dir true]> {["/" := Dir true]}))))
          [].

Definition world_bare : World := mkWorld {["/" := Dir true]} [].

Definition world_blocked : World :=
  mkWorld (<["/tmp/test-images/image2.png" := Dir true]>
            (<["/tmp/test-images" := Dir true]>
              (<["/tmp" := Dir true]> {["/" := Dir true]})))
          [].

Definition world_bare_dirs : World :=
  set_fs world_bare (<[output_dir := Dir true]> (<["/tmp" := Dir true]> (fs world_bare))).

(** ** Notions used in the statements *)

(** A palette: every pixel of the buffer is one of the listed colours. *)
Definition within (palette : list rgb) (im : Image) : Prop :=
  Forall (λ p, p ∈ palette) (Image_data im).

(** [w'] has the console of [w] and its file system, with perhaps some
    new writable directories at names that were free. *)
Definition extends (w w' : World) : Prop :=
  stdout w' = stdout w ∧
  ∀ p, fs w' !! p = fs w !! p ∨ (fs w !! p = None ∧ fs w' !! p = Some (Dir true)).

(** ** Further notions *)


(** Painting several sets of pixels with one ink, first to last. *)
Definition paint_all (ink : rgb) (covers : list (Z → Z → bool)) (im : Image) : Image :=
  foldl (λ im cover, paint cover ink im) im covers.

(** An operation drawn like the heart's: filled with [#ff5252], no
    outline. *)
Definition heart_like (op : shape_op) : Prop :=
  match op with
  | EllipseOp _ fill outline width
  | PolygonOp _ fill outline width =>
      fill = Some "#ff5252" ∧ outline = None ∧ width = 1
  end.

(** The pixels the fill of an operation covers. *)
Definition cover_of {R : Rasterizer} (op : shape_op) : Z → Z → bool :=
  match op with
  | EllipseOp xy _ _ _ => draw_ellipse xy true 0
  | PolygonOp xy _ _ _ => draw_polygon xy true 0
  end.

(** A world where a regular file sits at the output directory's path. *)
Definition world_clash : World :=
  mkWorld (<["/tmp/test-images" := File true (Blob [])]>
            (<["/tmp" := Dir true]> {["/" := Dir true]}))
          [].

(** * Properties *)

Ltac path_ne := apply String.eqb_neq; reflexivity.

Ltac fs_lookup :=
  repeat first
    [ rewrite lookup_insert_eq
    | rewrite lookup_insert_ne by path_ne ].

(** ** Colours and paths of the script *)

Lemma getrgb_literals :
  getrgb "black" = inr black ∧
  getrgb "#667eea" = inr circle_fill ∧ getrgb "#764ba2" = inr circle_outline ∧
  getrgb "#f093fb" = inr star_fill ∧ getrgb "#f5576c" = inr star_outline ∧
  getrgb "#ff5252" = inr heart_fill.
Proof. repeat split; vm_compute; reflexivity. Qed.

Lemma path_split_literals :
  path_split output_dir = ("/tmp", "test-images") ∧
  path_split "/tmp" = ("/", "tmp") ∧
  path_split "/" = ("/", "") ∧
  path_split image1_path = (output_dir, "image1.png") ∧
  path_split image2_path = (output_dir, "image2.png") ∧
  path_split image3_path = (output_dir, "image3.png").
Proof. repeat split; vm_compute; reflexivity. Qed.

(** ** Images and painting *)

Lemma pixel_index (w x y : Z) :
  0 <= x < w → 0 <= y →
  Z.of_nat (Z.to_nat (y * w + x)) `mod` w = x ∧
  Z.of_nat (Z.to_nat (y * w + x)) `div` w = y.
Proof.
  intros Hx Hy. rewrite Z2Nat.id by nia. split.
  - rewrite Z.add_comm, Z.mod_add by lia. apply Z.mod_small; lia.
  - rewrite Z.add_comm, Z.div_add by lia. rewrite Z.div_small; lia.
Qed.

Lemma in_bounds_spec (im : Image) (x y : Z) :
  in_bounds im x y = true ↔ 0 <= x < Image_width im ∧ 0 <= y < Image_height im.
Proof. unfold in_bounds. rewrite !andb_true_iff. lia. Qed.

Lemma paint_mode cover c im : Image_mode (paint cover c im) = Image_mode im.
Proof. reflexivity. Qed.

Lemma paint_size cover c im : Image_size (paint cover c im) = Image_size im.
Proof. reflexivity. Qed.

Lemma paint_wf cover c im : Image_wf im → Image_wf (paint cover c im).
Proof.
  unfold Image_wf, Image_width, Image_height, paint; simpl.
  by rewrite length_imap.
Qed.

(** No blending: a covered pixel holds the ink whatever was there, any
    other pixel is as before. *)
Lemma getpixel_paint cover c im x y :
  Image_getpixel (paint cover c im) (x, y)
  = (λ p, if cover x y then c else p) <$> Image_getpixel im (x, y).
Proof.
  unfold Image_getpixel.
  change (in_bounds (paint cover c im) x y) with (in_bounds im x y).
  destruct (in_bounds im x y) eqn:Hb; [|reflexivity].
  apply in_bounds_spec in Hb as [Hx Hy].
  change (Image_width (paint cover c im)) with (Image_width im).
  unfold paint; simpl. rewrite list_lookup_imap.
  destruct (pixel_index (Image_width im) x y) as [-> ->]; [lia..|reflexivity].
Qed.

Lemma Image_fill_wf mode (w h : Z) c :
  0 < w → 0 < h → Image_wf (Image_fill mode (w, h) c).
Proof.
  intros Hw Hh. unfold Image_wf, Image_width, Image_height, Image_fill; simpl.
  rewrite length_replicate, Z2Nat.id by nia. lia.
Qed.

Lemma getpixel_fill mode size c x y :
  in_bounds (Image_fill mode size c) x y = true →
  Image_getpixel (Image_fill mode size c) (x, y) = Some c.
Proof.
  intros Hb. unfold Image_getpixel. rewrite Hb.
  apply in_bounds_spec in Hb. destruct size as [w h].
  unfold Image_fill, Image_width, Image_height in *; simpl in *.
  apply lookup_replicate_2. nia.
Qed.

Lemma within_fill mode size c palette :
  c ∈ palette → within palette (Image_fill mode size c).
Proof.
  intros Hc. unfold within, Image_fill; simpl.
  apply Forall_forall. intros p Hp%elem_of_replicate. by destruct Hp as [-> _].
Qed.

Lemma within_paint cover c im palette :
  c ∈ palette → within palette im → within palette (paint cover c im).
Proof.
  unfold within, paint; simpl. intros Hc Him.
  apply Forall_lookup. intros i p. rewrite list_lookup_imap.
  destruct (Image_data im !! i) as [q|] eqn:Hq; simpl; [|done].
  intros [= <-]. case_match; [done|].
  by eapply Forall_lookup_1 in Him.
Qed.

Lemma within_getpixel palette im xy p :
  within palette im → Image_getpixel im xy = Some p → p ∈ palette.
Proof.
  unfold within, Image_getpixel. destruct xy as [x y].
  intros Him. case_match; [|done]. intros Hp.
  by eapply Forall_lookup_1 in Him.
Qed.

(** Two paints with one ink can be swapped. *)
Lemma paint_comm cover1 cover2 ink im :
  paint cover1 ink (paint cover2 ink im) = paint cover2 ink (paint cover1 ink im).
Proof.
  unfold paint, Image_width; simpl. f_equal.
  apply list_eq. intros i. rewrite !list_lookup_imap.
  destruct (Image_data im !! i) as [q|]; simpl; [|reflexivity].
  by repeat case_match.
Qed.

Lemma paint_all_perm ink (covers covers' : list (Z → Z → bool)) :
  Permutation covers covers' →
  ∀ im, paint_all ink covers im = paint_all ink covers' im.
Proof.
  induction 1 as [|c l l' _ IH|c1 c2 l|l1 l2 l3 _ IH1 _ IH2]; intros im; simpl.
  - reflexivity.
  - apply IH.
  - by rewrite paint_comm.
  - by rewrite IH1.
Qed.

(** From here on images are handled through the lemmas above. *)
Global Opaque Image_fill paint.

(** ** The drawing calls of the script *)

Section Calls.
Context {R : Rasterizer}.

Lemma Image_new_blank : Image_new "RGB" (400, 400) "black" = inr blank.
Proof. reflexivity. Qed.

Lemma ellipse_circle im :
  ellipse im circle_box (Some "#667eea") (Some "#764ba2") 5
  = inr (paint (draw_ellipse circle_box false 5) circle_outline
          (paint (draw_ellipse circle_box true 0) circle_fill im)).
Proof. reflexivity. Qed.

Lemma polygon_star im :
  polygon im star_points (Some "#f093fb") (Some "#f5576c") 5
  = inr (paint (polygon_outline star_points 5) star_outline
          (paint (draw_polygon star_points true 0) star_fill im)).
Proof. reflexivity. Qed.

Lemma ellipse_heart xy im :
  ellipse im xy (Some "#ff5252") None 1
  = inr (paint (draw_ellipse xy true 0) heart_fill im).
Proof. reflexivity. Qed.

Lemma polygon_heart xy im :
  polygon im xy (Some "#ff5252") None 1
  = inr (paint (draw_polygon xy true 0) heart_fill im).
Proof. reflexivity. Qed.

End Calls.

(** ** The monad *)

Lemma bind_call {A B} (a : A) (k : A → Script B) w :
  bind (call (inr a)) k w = k a w.
Proof. reflexivity. Qed.

Lemma bind_eq {A B} (m : Script A) (k k' : A → Script B) w :
  (∀ a w', k a w' = k' a w') → bind m k w = bind m k' w.
Proof. intros Hk. unfold bind. destruct (m w); [apply Hk|reflexivity]. Qed.

Lemma bind_Ok {A B} (m : Script A) (k : A → Script B) w a w' :
  m w = Ok a w' → bind m k w = k a w'.
Proof. intros Hm. unfold bind. by rewrite Hm. Qed.

Lemma bind_Raise {A B} (m : Script A) (k : A → Script B) w e w' :
  m w = Raise e w' → bind m k w = Raise e w'.
Proof. intros Hm. unfold bind. by rewrite Hm. Qed.

(** ** The file system calls *)

Lemma extends_refl w : extends w w.
Proof. split; [reflexivity|]. intros p. by left. Qed.

Lemma extends_trans w1 w2 w3 : extends w1 w2 → extends w2 w3 → extends w1 w3.
Proof.
  intros [Ho1 Hf1] [Ho2 Hf2]. split; [congruence|]. intros p.
  destruct (Hf1 p) as [H1|[H1 H1']], (Hf2 p) as [H2|[H2 H2']].
  - left. congruence.
  - right. split; congruence.
  - right. split; congruence.
  - congruence.
Qed.

Lemma extends_file_at w w' p : extends w w' → file_at w' p = file_at w p.
Proof.
  intros [_ Hf]. unfold file_at. destruct (Hf p) as [->|[-> ->]]; reflexivity.
Qed.

Lemma os_mkdir_extends name w : extends w (world_of (os_mkdir name w)).
Proof.
  unfold os_mkdir. repeat case_match; simpl; try apply extends_refl.
  split; [reflexivity|]. intros p. simpl.
  destruct (decide (name = p)) as [<-|Hne].
  - right. by rewrite lookup_insert_eq.
  - left. by rewrite lookup_insert_ne.
Qed.

Lemma mkdir_leaf_extends name ok w : extends w (world_of (mkdir_leaf name ok w)).
Proof.
  unfold mkdir_leaf, try_except.
  pose proof (os_mkdir_extends name w) as Hext.
  destruct (os_mkdir name w); simpl in *; [done|]. by case_match.
Qed.

Lemma makedirs_extends fuel name ok w : extends w (world_of (makedirs fuel name ok w)).
Proof.
  revert name w. induction fuel as [|fuel IH]; intros name w; simpl;
    destruct (path_split name) as [h t];
    destruct (if String.eqb t "" then path_split h else (h, t)) as [h' t'];
    destruct (negb (String.eqb h' "") && negb (String.eqb t' "")
              && negb (path_exists (fs w) h'));
    try apply mkdir_leaf_extends.
  unfold bind, try_except. pose proof (IH h' w) as Hrec.
  destruct (makedirs fuel h' ok w) as [[] w1|e w1]; simpl in Hrec.
  - destruct (String.eqb t' "."); [exact Hrec|].
    eapply extends_trans; [exact Hrec|apply mkdir_leaf_extends].
  - destruct (is_FileExistsError e); simpl; [|exact Hrec].
    destruct (String.eqb t' "."); [exact Hrec|].
    eapply extends_trans; [exact Hrec|apply mkdir_leaf_extends].
Qed.

(** What the leaf does when errors of an existing directory are
    tolerated. *)
Lemma mkdir_leaf_cases name w :
  mkdir_leaf name true w =
  match fs w !! name with
  | Some (Dir _) => Ok tt w
  | Some (File _ _) => Raise FileExistsError w
  | None =>
      match fs w !! (fst (path_split name)) with
      | None => Raise FileNotFoundError w
      | Some (File _ _) => Raise NotADirectoryError w
      | Some (Dir false) => Raise PermissionError w
      | Some (Dir true) => Ok tt (set_fs w (<[name := Dir true]> (fs w)))
      end
  end.
Proof.
  unfold mkdir_leaf, try_except, os_mkdir, path_isdir.
  destruct (fs w !! name) as [[b|b c]|] eqn:Hn; simpl; rewrite ?Hn; try reflexivity.
  destruct (fs w !! (path_split name).1) as [[[]|b c]|]; simpl; rewrite ?Hn; reflexivity.
Qed.

(** The call of the script, unfolded along the ancestors of its path. *)
Lemma os_makedirs_output_dir w :
  os_makedirs output_dir true w =
  if negb (path_exists (fs w) "/tmp") then
    bind (try_except
            (λ w, if negb (path_exists (fs w) "/") then
                    bind (try_except (mkdir_leaf "/" true) is_FileExistsError (λ _, ret tt))
                         (λ _, mkdir_leaf "/tmp" true) w
                  else mkdir_leaf "/tmp" true w)
            is_FileExistsError (λ _, ret tt))
         (λ _, mkdir_leaf output_dir true) w
  else mkdir_leaf output_dir true w.
Proof. reflexivity. Qed.

(** Two levels of recursion reach the root: any fuel from two on gives
    the result of the call. *)
Lemma makedirs_fuel_enough (n : nat) w :
  makedirs (2 + n) output_dir true w = os_makedirs output_dir true w.
Proof. rewrite os_makedirs_output_dir. destruct n; reflexivity. Qed.

Ltac makedirs_cases w :=
  rewrite os_makedirs_output_dir;
  unfold bind, try_except, ret; rewrite ?mkdir_leaf_cases;
  change ((path_split "/").1) with "/";
  change ((path_split "/tmp").1) with "/";
  change ((path_split output_dir).1) with "/tmp";
  unfold path_exists, path_isdir.

(** After a successful call the directory is there, and so is its
    parent. *)
Lemma makedirs_post w w' :
  os_makedirs output_dir true w = Ok tt w' →
  path_isdir (fs w') output_dir = true ∧ path_exists (fs w') "/tmp" = true.
Proof.
  makedirs_cases w.
  destruct (fs w !! "/tmp") as [[[]|]|] eqn:Htmp; simpl;
    [..|destruct (fs w !! "/") as [[[]|]|] eqn:Hroot; simpl;
        rewrite ?mkdir_leaf_cases; simpl;
        change ((path_split output_dir).1) with "/tmp"; fs_lookup];
    destruct (fs w !! output_dir) as [[]|] eqn:Hdir; simpl;
    intros Hw; try discriminate Hw; injection Hw as <-; simpl; fs_lookup;
    rewrite ?Hdir, ?Htmp; done.
Qed.

(** A directory that is there, in a directory that is there, is left
    alone and no error is raised. *)
Lemma makedirs_present w :
  path_isdir (fs w) output_dir = true → path_exists (fs w) "/tmp" = true →
  os_makedirs output_dir true w = Ok tt w.
Proof.
  makedirs_cases w. intros Hdir Htmp.
  destruct (fs w !! "/tmp"); [simpl|discriminate].
  by destruct (fs w !! output_dir) as [[]|].
Qed.

(** With only the root there, both missing directories are made. *)
Lemma makedirs_fresh w :
  fs w !! "/" = Some (Dir true) → fs w !! "/tmp" = None →
  fs w !! output_dir = None →
  os_makedirs output_dir true w
  = Ok tt (set_fs w (<[output_dir := Dir true]> (<["/tmp" := Dir true]> (fs w)))).
Proof.
  makedirs_cases w. intros Hroot Htmp Hdir. rewrite Htmp, Hroot; simpl.
  rewrite mkdir_leaf_cases; simpl.
  change ((path_split output_dir).1) with "/tmp". fs_lookup.
  by rewrite Hdir.
Qed.

(** With the parent there, only the directory is made. *)
Lemma makedirs_child w :
  fs w !! "/tmp" = Some (Dir true) → fs w !! output_dir = None →
  os_makedirs output_dir true w
  = Ok tt (set_fs w (<[output_dir := Dir true]> (fs w))).
Proof.
  makedirs_cases w. intros Htmp Hdir. by rewrite Htmp, Hdir.
Qed.

Lemma fs_wf_parent m p n :
  fs_wf m → m !! p = Some n → p ≠ "/" → path_isdir m (fst (path_split p)) = true.
Proof. intros Hwf Hp Hne. destruct (Hwf p n Hp); done. Qed.

Lemma fs_wf_output_dir w :
  fs_wf (fs w) → path_isdir (fs w) output_dir = true →
  path_exists (fs w) "/tmp" = true.
Proof.
  intros Hwf Hdir. unfold path_isdir in Hdir.
  destruct (fs w !! output_dir) as [n|] eqn:Hn; [|discriminate].
  apply (fs_wf_parent _ _ _ Hwf) in Hn; [|path_ne].
  change ((path_split output_dir).1) with "/tmp" in Hn.
  unfold path_isdir in Hn. unfold path_exists.
  by destruct (fs w !! "/tmp").
Qed.

Lemma open_w_insert m p n q :
  p ≠ q → p ≠ (path_split q).1 → open_w (<[p := n]> m) q = open_w m q.
Proof. intros H1 H2. unfold open_w. by rewrite !lookup_insert_ne. Qed.

(** ** The script, step by step *)

Section Run.
Context {R : Rasterizer}.

Lemma main_unfold w : main w = main_steps w.
Proof.
  unfold main, main_steps, fixtures. apply bind_eq; intros _ w0.
  rewrite Image_new_blank, bind_call, ellipse_circle, bind_call.
  apply bind_eq; intros _ w1. apply bind_eq; intros _ w2.
  rewrite bind_call, polygon_star, bind_call.
  apply bind_eq; intros _ w3. apply bind_eq; intros _ w4.
  rewrite bind_call, ellipse_heart, bind_call, ellipse_heart, bind_call,
    polygon_heart, bind_call.
  reflexivity.
Qed.

(** The three saves look at three different names of one directory, so
    whether each can be opened is settled by the file system
    [os.makedirs] left. *)
Lemma fixtures_cases w :
  fixtures w =
  match open_w (fs w) image1_path with
  | Some e => Raise e w
  | None =>
      match open_w (fs w) image2_path with
      | Some e => Raise e (after1 w)
      | None =>
          match open_w (fs w) image3_path with
          | Some e => Raise e (after2 w)
          | None => Ok tt (final w)
          end
      end
  end.
Proof.
  unfold fixtures, bind, Image_save, print, set_fs; simpl.
  destruct (open_w (fs w) image1_path); [reflexivity|]; simpl.
  rewrite open_w_insert by path_ne.
  destruct (open_w (fs w) image2_path); [reflexivity|]; simpl.
  rewrite !open_w_insert by path_ne.
  destruct (open_w (fs w) image3_path); simpl;
    unfold after2, final, written, console_lines; by rewrite <- !app_assoc.
Qed.

Lemma main_cases w :
  main w =
  match os_makedirs output_dir true w with
  | Ok _ w0 => fixtures w0
  | Raise e w0 => Raise e w0
  end.
Proof. rewrite main_unfold. reflexivity. Qed.

(** A run in which every call returns: the directory call returned and
    the three files could be opened. *)
Lemma main_Ok w w' :
  main w = Ok tt w' ↔
  ∃ w0, os_makedirs output_dir true w = Ok tt w0 ∧
        open_w (fs w0) image1_path = None ∧
        open_w (fs w0) image2_path = None ∧
        open_w (fs w0) image3_path = None ∧
        w' = final w0.
Proof.
  rewrite main_cases. split.
  - destruct (os_makedirs output_dir true w) as [[] w0|e w0]; [|done].
    rewrite fixtures_cases. intros Hrun. exists w0.
    destruct (open_w (fs w0) image1_path); [done|].
    destruct (open_w (fs w0) image2_path); [done|].
    destruct (open_w (fs w0) image3_path); [done|].
    by injection Hrun as <-.
  - intros (w0 & -> & H1 & H2 & H3 & ->).
    rewrite fixtures_cases. by rewrite H1, H2, H3.
Qed.

(** *** Runs in the sample worlds *)

Lemma main_present w :
  path_isdir (fs w) output_dir = true → path_exists (fs w) "/tmp" = true →
  open_w (fs w) image1_path = None → open_w (fs w) image2_path = None →
  open_w (fs w) image3_path = None →
  main w = Ok tt (final w).
Proof.
  intros Hdir Htmp H1 H2 H3. apply main_Ok. exists w.
  by rewrite makedirs_present.
Qed.

Lemma run_used : main world_used = Ok tt (final world_used).
Proof. apply main_present; vm_compute; reflexivity. Qed.

Lemma run_bare : main world_bare = Ok tt (final world_bare_dirs).
Proof.
  apply main_Ok. exists world_bare_dirs. split.
  - apply makedirs_fresh; vm_compute; reflexivity.
  - repeat split; vm_compute; reflexivity.
Qed.

Lemma run_blocked : main world_blocked = Raise IsADirectoryError (after1 world_blocked).
Proof.
  rewrite main_cases, makedirs_present by (vm_compute; reflexivity).
  rewrite fixtures_cases.
  replace (open_w (fs world_blocked) image1_path) with (@None exn)
    by (vm_compute; reflexivity).
  replace (open_w (fs world_blocked) image2_path) with (Some IsADirectoryError)
    by (vm_compute; reflexivity).
  reflexivity.
Qed.

End Run.

(** ** The fixtures on disk *)

Section Fixtures.
Context {R : Rasterizer}.

Lemma blank_wf : Image_wf blank.
Proof. by apply Image_fill_wf. Qed.

Lemma canvas_shape (im : Image) :
  im ∈ [canvas1; canvas2; canvas3] →
  Image_mode im = "RGB" ∧ Image_size im = (400, 400) ∧ Image_wf im.
Proof.
  intros Him. repeat (apply elem_of_cons in Him as [->|Him]);
    [..|by apply elem_of_nil in Him];
    (split; [reflexivity|split; [reflexivity|]]);
    repeat apply paint_wf; apply blank_wf.
Qed.

Lemma open_final w :
  Image_open (final w) image1_path = Some canvas1 ∧
  Image_open (final w) image2_path = Some canvas2 ∧
  Image_open (final w) image3_path = Some canvas3.
Proof.
  unfold Image_open, final, written; simpl. repeat split; by fs_lookup.
Qed.

Lemma not_elem_of_cons_chain (p a b c : string) :
  p ∉ [a; b; c] → a ≠ p ∧ b ≠ p ∧ c ≠ p ∧ True.
Proof.
  rewrite !not_elem_of_cons. intros (Ha & Hb & Hc & _). repeat split; congruence.
Qed.

Lemma lookup_written m p :
  p ∉ [image1_path; image2_path; image3_path] → written m !! p = m !! p.
Proof.
  intros (H1 & H2 & H3 & _)%not_elem_of_cons_chain. unfold written.
  by rewrite !lookup_insert_ne.
Qed.

(** C1. A run in which every call returned leaves, for each of the three
    fixtures, one PNG file at its fixed path: [image1.png], [image2.png],
    [image3.png] of [/tmp/test-images], three different names; each decodes
    to an RGB image of size 400 by 400 with one pixel per position; and any
    other file there is after the run was there before, so the run adds no
    further file. *)
Theorem fixtures_on_disk (w w' : World) :
  main w = Ok tt w' →
  (Image_open w' image1_path = Some canvas1 ∧
   Image_open w' image2_path = Some canvas2 ∧
   Image_open w' image3_path = Some canvas3) ∧
  NoDup [image1_path; image2_path; image3_path] ∧
  (∀ im, im ∈ [canvas1; canvas2; canvas3] →
     Image_mode im = "RGB" ∧ Image_size im = (400, 400) ∧
     Z.of_nat (length (Image_data im)) = 400 * 400) ∧
  (∀ p, p ∉ [image1_path; image2_path; image3_path] →
     file_at w' p = file_at w p).
Proof.
  intros (w0 & Hdir & _ & _ & _ & ->)%main_Ok. split; [apply open_final|].
  split.
  { repeat constructor; rewrite ?elem_of_cons, ?elem_of_nil;
      intros Hin; repeat destruct Hin as [Hin|Hin]; try done;
      by apply String.eqb_neq in Hin. }
  split.
  { intros im (Hm & Hs & _ & _ & Hlen)%canvas_shape. repeat split; try done.
    rewrite Hlen. unfold Image_width, Image_height. by rewrite Hs. }
  intros p Hp.
  pose proof (makedirs_extends (String.length output_dir) output_dir true w) as Hext.
  fold (os_makedirs output_dir true w) in Hext. rewrite Hdir in Hext; simpl in Hext.
  rewrite <- (extends_file_at _ _ p Hext).
  unfold file_at, final; simpl. by rewrite lookup_written.
Qed.

(** ** The heart: order of the draws *)

Lemma getpixel_Some im x y :
  Image_wf im → in_bounds im x y = true → is_Some (Image_getpixel im (x, y)).
Proof.
  intros (Hw & Hh & Hlen) Hb. unfold Image_getpixel. rewrite Hb.
  apply in_bounds_spec in Hb. apply lookup_lt_is_Some. nia.
Qed.

Lemma in_bounds_canvas (im : Image) x y :
  Image_size im = (400, 400) →
  0 <= x < 400 → 0 <= y < 400 → in_bounds im x y = true.
Proof.
  intros Hs Hx Hy. apply in_bounds_spec.
  unfold Image_width, Image_height. rewrite Hs. simpl. lia.
Qed.

Lemma getpixel_blank x y :
  0 <= x < 400 → 0 <= y < 400 → Image_getpixel blank (x, y) = Some black.
Proof. intros Hx Hy. apply getpixel_fill. by apply in_bounds_canvas. Qed.

(** C2. The heart is the three draws of the script applied in the order
    they are written, that is the list of operations (left circle, right
    circle, triangle) applied from first to last; each draw overwrites the
    pixels it covers with its ink, whatever they held, and leaves the
    others alone, so every pixel of the finished canvas holds the ink of
    the last draw that covers it, or the background. *)
Theorem heart_in_order :
  apply_ops blank heart_ops = inr canvas3 ∧
  canvas3 = paint (draw_polygon heart_triangle true 0) heart_fill
              (paint (draw_ellipse heart_right true 0) heart_fill
                (paint (draw_ellipse heart_left true 0) heart_fill blank)) ∧
  (∀ w w', main w = Ok tt w' → Image_open w' image3_path = Some canvas3) ∧
  (∀ cover ink im x y,
     Image_getpixel (paint cover ink im) (x, y)
     = if cover x y then (λ _, ink) <$> Image_getpixel im (x, y)
       else Image_getpixel im (x, y)) ∧
  (∀ x y, 0 <= x < 400 → 0 <= y < 400 →
     Image_getpixel canvas3 (x, y)
     = Some (if draw_polygon heart_triangle true 0 x y then heart_fill
             else if draw_ellipse heart_right true 0 x y then heart_fill
             else if draw_ellipse heart_left true 0 x y then heart_fill
             else black)).
Proof.
  split; [reflexivity|]. split; [reflexivity|].
  split; [intros w w' (w0 & _ & _ & _ & _ & ->)%main_Ok; apply open_final|]. split.
  - intros cover ink im x y. rewrite getpixel_paint.
    destruct (Image_getpixel im (x, y)), (cover x y); reflexivity.
  - intros x y Hx Hy. unfold canvas3, heart2, heart1.
    rewrite !getpixel_paint, getpixel_blank by done. simpl.
    by repeat case_match.
Qed.

(** ** The heart: its two colours *)

(** C9. The three shapes of the heart are drawn with one fill and no
    outline on a black canvas, so the canvas holds only black and that
    fill from the start and after each of the three draws, the last of
    which gives the image that is saved: no third colour appears where
    shapes overlap or meet. *)
Theorem heart_two_colours :
  (ellipse blank heart_left (Some "#ff5252") None 1 = inr heart1 ∧
   ellipse heart1 heart_right (Some "#ff5252") None 1 = inr heart2 ∧
   polygon heart2 heart_triangle (Some "#ff5252") None 1 = inr canvas3) ∧
  Forall (within [black; heart_fill]) [blank; heart1; heart2; canvas3] ∧
  (∀ im, im ∈ [blank; heart1; heart2; canvas3] →
     ∀ xy p, Image_getpixel im xy = Some p → p = black ∨ p = heart_fill).
Proof.
  assert (Hall : Forall (within [black; heart_fill]) [blank; heart1; heart2; canvas3]).
  { assert (black ∈ [black; heart_fill]) as Hb by apply list_elem_of_here.
    assert (heart_fill ∈ [black; heart_fill]) as Hf
      by apply list_elem_of_further, list_elem_of_here.
    assert (within [black; heart_fill] blank) as H0 by by apply within_fill.
    assert (within [black; heart_fill] heart1) as H1 by by apply within_paint.
    assert (within [black; heart_fill] heart2) as H2 by by apply within_paint.
    assert (within [black; heart_fill] canvas3) as H3 by by apply within_paint.
    repeat (apply Forall_cons_2; [assumption|]). apply Forall_nil_2. }
  split; [repeat split; reflexivity|]. split; [exact Hall|].
  intros im Him xy p Hp.
  rewrite Forall_forall in Hall. specialize (Hall im Him).
  apply (within_getpixel _ _ _ _ Hall) in Hp.
  rewrite !elem_of_cons, elem_of_nil in Hp. tauto.
Qed.

(** ** The canvases do not depend on the world *)

(** C10. The script takes nothing from its surroundings: size, coordinates
    and colours are literals, so each canvas is one fixed image, and any
    two runs in which every call returned, from whatever worlds, end with
    the same three images, pixel for pixel. *)
Theorem canvases_deterministic (w1 w2 w1' w2' : World) :
  main w1 = Ok tt w1' → main w2 = Ok tt w2' →
  ∀ p, p ∈ [image1_path; image2_path; image3_path] →
    is_Some (Image_open w1' p) ∧ Image_open w1' p = Image_open w2' p.
Proof.
  intros (u1 & _ & _ & _ & _ & ->)%main_Ok (u2 & _ & _ & _ & _ & ->)%main_Ok p Hp.
  destruct (open_final u1) as (A1 & A2 & A3), (open_final u2) as (B1 & B2 & B3).
  repeat (apply elem_of_cons in Hp as [->|Hp]); [..|by apply elem_of_nil in Hp].
  - rewrite A1, B1. split; [eexists; reflexivity|reflexivity].
  - rewrite A2, B2. split; [eexists; reflexivity|reflexivity].
  - rewrite A3, B3. split; [eexists; reflexivity|reflexivity].
Qed.

(** ** Running again *)

Lemma written_idem m : written (written m) = written m.
Proof.
  apply map_eq. intros p. unfold written.
  destruct (decide (p = image3_path)) as [->|H3]; [fs_lookup; reflexivity|].
  destruct (decide (p = image2_path)) as [->|H2]; [fs_lookup; reflexivity|].
  destruct (decide (p = image1_path)) as [->|H1]; [fs_lookup; reflexivity|].
  rewrite !lookup_insert_ne by congruence. reflexivity.
Qed.

Lemma written_dirs m :
  path_isdir (written m) output_dir = path_isdir m output_dir ∧
  path_exists (written m) "/tmp" = path_exists m "/tmp".
Proof. unfold path_isdir, path_exists, written. by fs_lookup. Qed.

Lemma open_written m :
  open_w (written m) image1_path = None ∧
  open_w (written m) image2_path = None ∧
  open_w (written m) image3_path = None.
Proof. unfold open_w, written. repeat split; by fs_lookup. Qed.

(** C5. After a run in which every call returned, a second run returns
    as well: it finds the directory, overwrites each of the three files
    with the same image and prints the same lines, and the file system it
    leaves is the one it found, with no file more. *)
Theorem rerun_idempotent (w w' : World) :
  main w = Ok tt w' →
  ∃ w'', main w' = Ok tt w'' ∧ fs w'' = fs w' ∧
         stdout w' = (stdout w ++ console_lines)%list ∧
         stdout w'' = (stdout w' ++ console_lines)%list.
Proof.
  intros (w0 & Hdir & _ & _ & _ & ->)%main_Ok.
  apply makedirs_post in Hdir as Hpost. destruct Hpost as [Hd Ht].
  destruct (written_dirs (fs w0)) as [Hd' Ht'].
  destruct (open_written (fs w0)) as (H1 & H2 & H3).
  exists (final (final w0)). split.
  - apply main_present; simpl; congruence.
  - split; [apply written_idem|]. split; [|reflexivity]. simpl.
    pose proof (makedirs_extends (String.length output_dir) output_dir true w) as [Hout _].
    fold (os_makedirs output_dir true w) in Hout. rewrite Hdir in Hout.
    simpl in Hout. by rewrite Hout.
Qed.

(** ** Other people's files *)

Lemma fixtures_frame w p :
  p ∉ [image1_path; image2_path; image3_path] →
  fs (world_of (fixtures w)) !! p = fs w !! p.
Proof.
  intros Hp. pose proof (lookup_written (fs w) p Hp) as Hw.
  apply not_elem_of_cons_chain in Hp as (H1 & H2 & H3 & _).
  rewrite fixtures_cases. repeat case_match; simpl; try done.
  - by rewrite lookup_insert_ne.
  - by rewrite !lookup_insert_ne.
Qed.

Lemma main_frame w p :
  p ∉ [image1_path; image2_path; image3_path] →
  file_at (world_of (main w)) p = file_at w p.
Proof.
  intros Hp. rewrite main_cases.
  pose proof (makedirs_extends (String.length output_dir) output_dir true w) as Hext.
  fold (os_makedirs output_dir true w) in Hext.
  destruct (os_makedirs output_dir true w) as [[] w0|e w0]; simpl in Hext.
  - rewrite <- (extends_file_at _ _ p Hext). unfold file_at.
    by rewrite fixtures_frame.
  - by apply extends_file_at.
Qed.

(** C6. When the output directory is there before the run, every file
    under a name other than the three of the script is after the run what
    it was before, whether the run ended well or not; and in a file system
    that is a tree nothing else is added either: every other name holds
    what it held. *)
Theorem others_untouched (w : World) (p : string) :
  path_isdir (fs w) output_dir = true →
  p ∉ [image1_path; image2_path; image3_path] →
  file_at (world_of (main w)) p = file_at w p ∧
  (fs_wf (fs w) → fs (world_of (main w)) !! p = fs w !! p).
Proof.
  intros Hdir Hp. split; [by apply main_frame|]. intros Hwf.
  rewrite main_cases, makedirs_present by auto using fs_wf_output_dir.
  by apply fixtures_frame.
Qed.

Lemma world_used_wf : fs_wf (fs world_used).
Proof.
  unfold fs_wf, world_used; simpl.
  repeat (apply map_Forall_insert_2; [right; vm_compute; reflexivity|]).
  apply map_Forall_empty.
Qed.

(** ** The directory comes first *)

Lemma makedirs_Raise_frame w e w0 :
  os_makedirs output_dir true w = Raise e w0 →
  stdout w0 = stdout w ∧ ∀ p, file_at w0 p = file_at w p.
Proof.
  intros Hdir.
  pose proof (makedirs_extends (String.length output_dir) output_dir true w) as Hext.
  fold (os_makedirs output_dir true w) in Hext. rewrite Hdir in Hext. simpl in Hext.
  split; [apply Hext|]. intros p. by apply extends_file_at.
Qed.

(** C7. The first thing a run does is [os.makedirs] on the output
    directory, tolerating an existing one: if that call raises, the run
    ends there with nothing printed and no file changed; if it returns, the
    directory exists; when the directory is already there the call returns
    and changes nothing; when it is missing from a parent one may write to
    the call makes it, and when the parent is missing too, under a root
    one may write to, the call makes the parent and then the directory. *)
Theorem directory_ensured (w : World) :
  main w = bind (os_makedirs output_dir true) (λ _, fixtures) w ∧
  (∀ e w0, os_makedirs output_dir true w = Raise e w0 →
     main w = Raise e w0 ∧ stdout w0 = stdout w ∧ ∀ p, file_at w0 p = file_at w p) ∧
  (∀ w0, os_makedirs output_dir true w = Ok tt w0 →
     path_isdir (fs w0) output_dir = true) ∧
  (fs_wf (fs w) → path_isdir (fs w) output_dir = true →
     os_makedirs output_dir true w = Ok tt w) ∧
  (fs w !! "/tmp" = Some (Dir true) → fs w !! output_dir = None →
     os_makedirs output_dir true w
     = Ok tt (set_fs w (<[output_dir := Dir true]> (fs w)))) ∧
  (fs w !! "/" = Some (Dir true) → fs w !! "/tmp" = None →
   fs w !! output_dir = None →
     os_makedirs output_dir true w
     = Ok tt (set_fs w (<[output_dir := Dir true]> (<["/tmp" := Dir true]> (fs w))))).
Proof.
  split; [exact (main_unfold w)|]. split.
  { intros e w0 Hdir. split; [|exact (makedirs_Raise_frame w e w0 Hdir)].
    by rewrite main_cases, Hdir. }
  split; [intros w0 Hdir; by apply makedirs_post in Hdir as [? _]|].
  split; [|split; [apply makedirs_child|apply makedirs_fresh]].
  intros Hwf Hdir. apply makedirs_present; auto using fs_wf_output_dir.
Qed.

(** ** A failure stops the run *)

Lemma save_Ok im path w a w1 :
  Image_save im path w = Ok a w1 →
  w1 = set_fs w (<[path := File true (PNG im)]> (fs w)).
Proof. unfold Image_save. destruct (open_w (fs w) path); congruence. Qed.

Lemma save_Raise im path w e w1 :
  Image_save im path w = Raise e w1 → w1 = w ∧ open_w (fs w) path = Some e.
Proof. unfold Image_save. destruct (open_w (fs w) path); intros [= -> ->]; done. Qed.

(** Where a run that raised stopped, and the world it left. *)
Lemma main_Raise w e w' :
  main w = Raise e w' →
  os_makedirs output_dir true w = Raise e w' ∨
  ∃ w0, os_makedirs output_dir true w = Ok tt w0 ∧
    (Image_save canvas1 image1_path w0 = Raise e w' ∨
     Image_save canvas2 image2_path (after1 w0) = Raise e w' ∨
     Image_save canvas3 image3_path (after2 w0) = Raise e w').
Proof.
  rewrite main_cases.
  destruct (os_makedirs output_dir true w) as [[] w0|e0 w0]; [|by left].
  intros Hrun. right. exists w0. split; [reflexivity|].
  rewrite fixtures_cases in Hrun. unfold Image_save, after1, after2; simpl.
  rewrite !open_w_insert by path_ne.
  destruct (open_w (fs w0) image1_path); [by left|].
  destruct (open_w (fs w0) image2_path); [by right; left|].
  destruct (open_w (fs w0) image3_path); [by right; right|]. done.
Qed.

(** C8. An error is not handled anywhere in the script: a run that raises
    stopped at the call that raised, either [os.makedirs] or one of the
    three saves, and its world is the one that call left.  In particular,
    when the first fixture is written and announced and the save of the
    second raises, the run raises that error in that world: the first file
    is there with its image, nothing is rolled back, the third file is what
    it was before the run, and only the first message was printed. *)
Theorem failure_stops_run (w : World) :
  (∀ e w', main w = Raise e w' →
     os_makedirs output_dir true w = Raise e w' ∨
     ∃ w0, os_makedirs output_dir true w = Ok tt w0 ∧
       (Image_save canvas1 image1_path w0 = Raise e w' ∨
        Image_save canvas2 image2_path (after1 w0) = Raise e w' ∨
        Image_save canvas3 image3_path (after2 w0) = Raise e w')) ∧
  (∀ w0 w1 w1' e w2,
     os_makedirs output_dir true w = Ok tt w0 →
     Image_save canvas1 image1_path w0 = Ok tt w1 →
     print "Created image1.png" w1 = Ok tt w1' →
     Image_save canvas2 image2_path w1' = Raise e w2 →
     main w = Raise e w2 ∧ w2 = w1' ∧
     Image_open w2 image1_path = Some canvas1 ∧
     file_at w2 image3_path = file_at w image3_path ∧
     stdout w2 = (stdout w ++ ["Created image1.png"])%list).
Proof.
  split; [apply main_Raise|].
  intros w0 w1 w1' e w2 Hdir Hs1 Hp1 Hs2.
  apply save_Raise in Hs2 as Hw2. destruct Hw2 as [-> _].
  split; [|split; [reflexivity|]].
  { rewrite main_cases, Hdir. unfold fixtures.
    by rewrite (bind_Ok _ _ _ _ _ Hs1), (bind_Ok _ _ _ _ _ Hp1), (bind_Raise _ _ _ _ _ Hs2). }
  apply save_Ok in Hs1 as ->. injection Hp1 as <-.
  pose proof (makedirs_extends (String.length output_dir) output_dir true w) as Hext.
  fold (os_makedirs output_dir true w) in Hext. rewrite Hdir in Hext. simpl in Hext.
  split; [|split].
  - unfold Image_open; simpl. fs_lookup. reflexivity.
  - rewrite <- (extends_file_at _ _ image3_path Hext).
    unfold file_at; simpl. fs_lookup. reflexivity.
  - simpl. destruct Hext as [-> _]. reflexivity.
Qed.

(** ** The pixels of the heart's shapes *)

(** C4, as amended.  After a run in which every call returned, every
    pixel of the third image that lies in at least one of the heart's
    three shapes, the left circle, the right circle or the triangle, holds
    the heart's fill [#ff5252]; so does, in particular, a pixel where a
    circle and the triangle overlap. *)
Theorem heart_shapes_filled (w w' : World) (x y : Z) :
  main w = Ok tt w' →
  0 <= x < 400 → 0 <= y < 400 →
  draw_ellipse heart_left true 0 x y
  || draw_ellipse heart_right true 0 x y
  || draw_polygon heart_triangle true 0 x y = true →
  getrgb "#ff5252" = inr heart_fill ∧
  ∃ im, Image_open w' image3_path = Some im ∧
        Image_getpixel im (x, y) = Some heart_fill.
Proof.
  intros (w0 & _ & _ & _ & _ & ->)%main_Ok Hx Hy Hin.
  split; [reflexivity|]. exists canvas3. split; [apply open_final|].
  unfold canvas3, heart2, heart1.
  rewrite !getpixel_paint, getpixel_blank by done. simpl.
  destruct (draw_polygon heart_triangle true 0 x y); [reflexivity|].
  destruct (draw_ellipse heart_right true 0 x y); [reflexivity|].
  destruct (draw_ellipse heart_left true 0 x y); [reflexivity|discriminate].
Qed.

End Fixtures.

(** * More on the script *)

Section More.
Context {R : Rasterizer}.

(** ** The two fixtures with an outline *)

(** X1. In the first image the outline is drawn after the fill and over
    it: a pixel of the canvas holds the outline colour if the outline
    covers it, else the fill colour if the filled ellipse covers it, else
    the background; so the image has at most these three colours. *)
Theorem circle_pixels (x y : Z) :
  0 <= x < 400 → 0 <= y < 400 →
  Image_getpixel canvas1 (x, y)
  = Some (if draw_ellipse circle_box false 5 x y then circle_outline
          else if draw_ellipse circle_box true 0 x y then circle_fill
          else black) ∧
  within [black; circle_fill; circle_outline] canvas1.
Proof.
  intros Hx Hy. split.
  - unfold canvas1. rewrite !getpixel_paint, getpixel_blank by done. reflexivity.
  - unfold canvas1. apply within_paint; [set_solver|].
    apply within_paint; [set_solver|]. apply within_fill. set_solver.
Qed.

(** An outline wider than one pixel stays inside the filled polygon. *)
Lemma polygon_outline_inside (xy : list point) (width x y : Z) :
  width ≠ 1 → polygon_outline xy width x y = true →
  draw_polygon xy true 0 x y = true.
Proof.
  intros Hw. unfold polygon_outline.
  destruct (Z.eqb_spec width 1) as [Heq|_]; [done|].
  by intros [? _]%andb_true_iff.
Qed.

(** X2. In the second image a pixel holds the outline colour if the
    star's outline covers it, else the fill colour if the filled star
    covers it, else the background; the outline of width 5 does not grow
    outwards, so a pixel outside the filled star is background. *)
Theorem star_pixels (x y : Z) :
  0 <= x < 400 → 0 <= y < 400 →
  Image_getpixel canvas2 (x, y)
  = Some (if polygon_outline star_points 5 x y then star_outline
          else if draw_polygon star_points true 0 x y then star_fill
          else black) ∧
  (draw_polygon star_points true 0 x y = false →
     Image_getpixel canvas2 (x, y) = Some black).
Proof.
  intros Hx Hy.
  assert (Hpix : Image_getpixel canvas2 (x, y)
    = Some (if polygon_outline star_points 5 x y then star_outline
            else if draw_polygon star_points true 0 x y then star_fill
            else black)).
  { unfold canvas2. rewrite !getpixel_paint, getpixel_blank by done. reflexivity. }
  split; [exact Hpix|]. intros Hout. rewrite Hpix, Hout.
  destruct (polygon_outline star_points 5 x y) eqn:Hring; [|reflexivity].
  apply polygon_outline_inside in Hring; [congruence|lia].
Qed.

(** ** The console follows the files *)



(** ** [os.makedirs] only adds *)


(** ** A file where the directory should be *)

(** X6. [exist_ok] forgives an existing directory only: in a file system
    that is a tree, when the output directory's path holds a regular file
    the run raises [FileExistsError] at once, leaving the world as it
    was. *)
Theorem file_in_the_way (w : World) (b : bool) (c : content) :
  fs_wf (fs w) → fs w !! output_dir = Some (File b c) →
  main w = Raise FileExistsError w.
Proof.
  intros Hwf Hfile. rewrite main_cases.
  assert (Htmp : path_isdir (fs w) "/tmp" = true).
  { apply (fs_wf_parent _ _ _ Hwf Hfile). path_ne. }
  unfold path_isdir in Htmp. makedirs_cases w. rewrite Hfile.
  destruct (fs w !! "/tmp") as [[]|]; try discriminate Htmp; reflexivity.
Qed.

(** ** When a run returns *)

Lemma open_w_None m p :
  open_w m p = None ↔
  (∃ c, m !! p = Some (File true c)) ∨
  (m !! p = None ∧ m !! (path_split p).1 = Some (Dir true)).
Proof.
  unfold open_w. destruct (m !! p) as [[b|[] f]|].
  - split; [done|]. intros [[c Hc]|[Hn _]]; done.
  - split; [eauto|done].
  - split; [done|]. intros [[c Hc]|[Hn _]]; done.
  - destruct (m !! (path_split p).1) as [[[]|]|].
    + split; [eauto|done].
    + split; [done|]. intros [[c' Hc]|[_ Hd]]; done.
    + split; [done|]. intros [[c' Hc]|[_ Hd]]; done.
    + split; [done|]. intros [[c' Hc]|[_ Hd]]; done.
Qed.


(** ** The file system stays a tree *)

Lemma path_isdir_insert_ne m p n q :
  p ≠ q → path_isdir (<[p := n]> m) q = path_isdir m q.
Proof. intros Hne. unfold path_isdir. by rewrite lookup_insert_ne. Qed.

Lemma path_isdir_lookup m q :
  path_isdir m q = true → ∃ b, m !! q = Some (Dir b).
Proof. unfold path_isdir. destruct (m !! q) as [[b|]|]; [eauto|done..]. Qed.

Lemma fs_wf_insert_new m p n :
  fs_wf m → m !! p = None → path_isdir m (path_split p).1 = true →
  fs_wf (<[p := n]> m).
Proof.
  intros Hwf Hnone Hpar.
  assert (Hkeep : ∀ r, path_isdir m r = true → path_isdir (<[p := n]> m) r = true).
  { intros r Hr. rewrite path_isdir_insert_ne; [exact Hr|].
    intros <-. apply path_isdir_lookup in Hr as [b Hb]. congruence. }
  intros q nq Hq. destruct (decide (p = q)) as [<-|Hne].
  - right. by apply Hkeep.
  - rewrite lookup_insert_ne in Hq by done.
    destruct (Hwf q nq Hq) as [->|Hd]; [by left|right]. by apply Hkeep.
Qed.

Lemma fs_wf_overwrite m p b c b' c' :
  fs_wf m → m !! p = Some (File b c) → fs_wf (<[p := File b' c']> m).
Proof.
  intros Hwf Hfile.
  assert (Hkeep : ∀ r, path_isdir m r = true →
            path_isdir (<[p := File b' c']> m) r = true).
  { intros r Hr. rewrite path_isdir_insert_ne; [exact Hr|].
    intros <-. apply path_isdir_lookup in Hr as [d Hd]. congruence. }
  intros q nq Hq. destruct (decide (p = q)) as [<-|Hne].
  - destruct (Hwf p _ Hfile) as [->|Hd]; [by left|right]. by apply Hkeep.
  - rewrite lookup_insert_ne in Hq by done.
    destruct (Hwf q nq Hq) as [->|Hd]; [by left|right]. by apply Hkeep.
Qed.

Lemma fs_wf_save m p c :
  fs_wf m → open_w m p = None → fs_wf (<[p := File true (PNG c)]> m).
Proof.
  intros Hwf [[c0 Hfile]|[Hnone Hdir]]%open_w_None.
  - by eapply fs_wf_overwrite.
  - apply fs_wf_insert_new; [done..|]. unfold path_isdir. by rewrite Hdir.
Qed.

Lemma os_mkdir_wf name w :
  fs_wf (fs w) → fs_wf (fs (world_of (os_mkdir name w))).
Proof.
  intros Hwf. unfold os_mkdir.
  destruct (fs w !! name) eqn:Hname; [exact Hwf|].
  destruct (fs w !! (path_split name).1) as [[[]|]|] eqn:Hpar; try exact Hwf.
  simpl. apply fs_wf_insert_new; [done..|]. unfold path_isdir. by rewrite Hpar.
Qed.

Lemma mkdir_leaf_wf name ok w :
  fs_wf (fs w) → fs_wf (fs (world_of (mkdir_leaf name ok w))).
Proof.
  intros Hwf. unfold mkdir_leaf, try_except.
  pose proof (os_mkdir_wf name w Hwf) as Hmk.
  destruct (os_mkdir name w); simpl in *; [exact Hmk|]. by case_match.
Qed.

Lemma makedirs_wf fuel name ok w :
  fs_wf (fs w) → fs_wf (fs (world_of (makedirs fuel name ok w))).
Proof.
  revert name w. induction fuel as [|fuel IH]; intros name w Hwf; simpl;
    destruct (path_split name) as [h t];
    destruct (if String.eqb t "" then path_split h else (h, t)) as [h' t'];
    destruct (negb (String.eqb h' "") && negb (String.eqb t' "")
              && negb (path_exists (fs w) h'));
    try by apply mkdir_leaf_wf.
  unfold bind, try_except. pose proof (IH h' w Hwf) as Hrec.
  destruct (makedirs fuel h' ok w) as [[] w1|e w1]; simpl in Hrec.
  - destruct (String.eqb t' "."); [exact Hrec|]. by apply mkdir_leaf_wf.
  - destruct (is_FileExistsError e); simpl; [|exact Hrec].
    destruct (String.eqb t' "."); [exact Hrec|]. by apply mkdir_leaf_wf.
Qed.

(** X5. A run keeps the file system a tree: if every entry but the root
    lies in a directory before the run, so it does after, whether the run
    returned or raised. *)
Theorem run_keeps_tree (w : World) :
  fs_wf (fs w) → fs_wf (fs (world_of (main w))).
Proof.
  intros Hwf. rewrite main_cases.
  pose proof (makedirs_wf (String.length output_dir) output_dir true w Hwf) as Hmk.
  fold (os_makedirs output_dir true w) in Hmk.
  destruct (os_makedirs output_dir true w) as [[] w0|e w0]; simpl in Hmk;
    [|exact Hmk].
  rewrite fixtures_cases.
  destruct (open_w (fs w0) image1_path) eqn:H1; [exact Hmk|].
  pose proof (fs_wf_save _ _ canvas1 Hmk H1) as Hwf1.
  assert (H2' : ∀ o, open_w (fs w0) image2_path = o →
            open_w (<[image1_path := File true (PNG canvas1)]> (fs w0)) image2_path = o)
    by (intros o <-; apply open_w_insert; path_ne).
  destruct (open_w (fs w0) image2_path) eqn:H2; [exact Hwf1|].
  pose proof (fs_wf_save _ _ canvas2 Hwf1 (H2' _ eq_refl)) as Hwf2.
  assert (H3' : ∀ o, open_w (fs w0) image3_path = o →
            open_w (<[image2_path := File true (PNG canvas2)]>
                     (<[image1_path := File true (PNG canvas1)]> (fs w0))) image3_path = o)
    by (intros o <-; rewrite !open_w_insert by path_ne; reflexivity).
  destruct (open_w (fs w0) image3_path) eqn:H3; [exact Hwf2|].
  exact (fs_wf_save _ _ canvas3 Hwf2 (H3' _ eq_refl)).
Qed.

(** ** Colours are bytes *)





(** ** The heart in any order *)

Lemma apply_ops_heart_like ops im :
  Forall heart_like ops →
  apply_ops im ops = inr (paint_all heart_fill (cover_of <$> ops) im).
Proof.
  intros Hops. revert im. induction Hops as [|op ops Hop _ IH]; intros im.
  - reflexivity.
  - destruct op as [xy f o wd|xy f o wd]; destruct Hop as (-> & -> & ->);
      cbn [apply_ops apply_op].
    + rewrite ellipse_heart. cbn [bind_result]. rewrite IH. reflexivity.
    + rewrite polygon_heart. cbn [bind_result]. rewrite IH. reflexivity.
Qed.

(** X9. The three draws of the heart use one ink, so their order does
    not matter: applied in any order, the three operations give the canvas
    the script saves. *)
Theorem heart_any_order (ops : list shape_op) :
  Permutation ops heart_ops → apply_ops blank ops = inr canvas3.
Proof.
  intros Hperm.
  assert (Hlike : Forall heart_like ops).
  { rewrite Hperm. repeat (apply Forall_cons_2; [by repeat split|]). apply Forall_nil_2. }
  rewrite (apply_ops_heart_like _ _ Hlike). f_equal.
  rewrite (paint_all_perm _ _ (cover_of <$> heart_ops)) by (by apply fmap_Permutation).
  reflexivity.
Qed.

End More.

(** * The script with the geometric rasteriser *)

#[local] Existing Instance geometric.

Lemma canvas1_centre : Image_getpixel canvas1 (200, 200) = Some circle_fill.
Proof.
  unfold canvas1. rewrite !getpixel_paint, getpixel_blank by lia.
  vm_compute; reflexivity.
Qed.

(** C3. After a run in which every call returned, the pixel at the centre
    (200, 200) of the first image lies in the filled circle and not in its
    outline, and holds the circle's fill [#667eea], which is neither the
    background nor the outline colour. *)
Theorem circle_centre (w w' : World) :
  main (R := geometric) w = Ok tt w' →
  draw_ellipse circle_box true 0 200 200 = true ∧
  draw_ellipse circle_box false 5 200 200 = false ∧
  getrgb "#667eea" = inr circle_fill ∧
  circle_fill ≠ black ∧ circle_fill ≠ circle_outline ∧
  ∃ im, Image_open w' image1_path = Some im ∧
        Image_getpixel im (200, 200) = Some circle_fill.
Proof.
  intros (w0 & _ & _ & _ & _ & ->)%main_Ok.
  do 5 (split; [by vm_compute|]).
  exists canvas1. split; [apply open_final|apply canvas1_centre].
Qed.

(** The centre of the circle after the run from the bare root. *)
Lemma circle_centre_witness :
  main world_bare = Ok tt (final world_bare_dirs) ∧
  ∃ im, Image_open (final world_bare_dirs) image1_path = Some im ∧
        Image_getpixel im (200, 200) = Some circle_fill.
Proof.
  split; [apply run_bare|].
  apply (circle_centre world_bare (final world_bare_dirs) run_bare).
Defined.

Lemma in_ellipse_box b x y : in_ellipse b x y = true → in_box b x y = true.
Proof. unfold in_ellipse. by intros [? _]%andb_true_iff. Qed.

(** The two circles of the heart share no pixel: one ends at column 180,
    the other starts at column 220. *)
Lemma heart_circles_apart x y :
  draw_ellipse heart_left true 0 x y = true →
  draw_ellipse heart_right true 0 x y = true → False.
Proof.
  intros Hl%in_ellipse_box Hr%in_ellipse_box.
  unfold in_box, heart_left, heart_right in *.
  rewrite !andb_true_iff in Hl, Hr. lia.
Qed.

(** C4, as stated: there is no pixel lying at once in the left circle,
    in the right circle and in the triangle whose colour could be looked
    at. *)
Lemma heart_no_shared_pixel :
  ¬ ∃ x y,
      (draw_ellipse heart_left true 0 x y = true ∧
       draw_ellipse heart_right true 0 x y = true ∧
       draw_polygon heart_triangle true 0 x y = true) ∧
      Image_getpixel canvas3 (x, y) = Some heart_fill.
Proof.
  intros (x & y & (Hl & Hr & _) & _). exact (heart_circles_apart x y Hl Hr).
Qed.

(** A pixel of the left circle and of the triangle, after the run from
    the bare root. *)
Lemma heart_shapes_filled_witness :
  main world_bare = Ok tt (final world_bare_dirs) ∧
  draw_ellipse heart_left true 0 130 160 && draw_polygon heart_triangle true 0 130 160 = true ∧
  ∃ im, Image_open (final world_bare_dirs) image3_path = Some im ∧
        Image_getpixel im (130, 160) = Some heart_fill.
Proof.
  split; [apply run_bare|]. split; [vm_compute; reflexivity|].
  apply (heart_shapes_filled world_bare (final world_bare_dirs) 130 160 run_bare);
    [lia|lia|vm_compute; reflexivity].
Defined.

(** The directory call where the directory is in use and from the bare
    root. *)
Lemma directory_ensured_witness :
  os_makedirs output_dir true world_used = Ok tt world_used ∧
  os_makedirs output_dir true world_bare = Ok tt world_bare_dirs ∧
  path_isdir (fs world_bare_dirs) output_dir = true.
Proof.
  destruct (directory_ensured world_used) as (_ & _ & _ & Hthere & _).
  destruct (directory_ensured world_bare) as (_ & _ & Hpost & _ & _ & Hfresh).
  assert (Hrun : os_makedirs output_dir true world_bare = Ok tt world_bare_dirs).
  { apply Hfresh; vm_compute; reflexivity. }
  split; [apply Hthere; [apply world_used_wf|vm_compute; reflexivity]|].
  split; [exact Hrun|exact (Hpost _ Hrun)].
Defined.

Lemma blocked_steps :
  os_makedirs output_dir true world_blocked = Ok tt world_blocked ∧
  Image_save canvas1 image1_path world_blocked
  = Ok tt (set_fs world_blocked
             (<[image1_path := File true (PNG canvas1)]> (fs world_blocked))) ∧
  Image_save canvas2 image2_path (after1 world_blocked)
  = Raise IsADirectoryError (after1 world_blocked).
Proof.
  split; [apply makedirs_present; vm_compute; reflexivity|].
  unfold Image_save, after1; simpl. rewrite open_w_insert by path_ne.
  replace (open_w (fs world_blocked) image1_path) with (@None exn)
    by (vm_compute; reflexivity).
  replace (open_w (fs world_blocked) image2_path) with (Some IsADirectoryError)
    by (vm_compute; reflexivity).
  split; reflexivity.
Qed.

(** The run in the world where a directory sits at the second fixture's
    path. *)
Lemma failure_stops_run_witness :
  main world_blocked = Raise IsADirectoryError (after1 world_blocked) ∧
  Image_open (after1 world_blocked) image1_path = Some canvas1 ∧
  file_at (after1 world_blocked) image3_path = None ∧
  stdout (after1 world_blocked) = ["Created image1.png"].
Proof.
  destruct blocked_steps as (Hdir & Hs1 & Hs2).
  destruct (failure_stops_run world_blocked) as [_ Hstop].
  destruct (Hstop world_blocked _ (after1 world_blocked) _ _ Hdir Hs1 eq_refl Hs2)
    as (Hrun & _ & Himg & Hthird & Hout).
  split; [exact Hrun|]. split; [exact Himg|]. split; [|exact Hout].
  rewrite Hthird. vm_compute; reflexivity.
Defined.

(** The run in the world where the directory is in use. *)
Lemma fixtures_on_disk_witness :
  main world_used = Ok tt (final world_used) ∧
  Image_open (final world_used) image1_path = Some canvas1 ∧
  file_at (final world_used) "/tmp/test-images/notes.txt"
  = file_at world_used "/tmp/test-images/notes.txt".
Proof.
  split; [apply run_used|].
  destruct (fixtures_on_disk world_used (final world_used) run_used)
    as ((H1 & _) & _ & _ & Hrest).
  split; [exact H1|]. apply Hrest.
  rewrite !elem_of_cons, elem_of_nil.
  intros Hin; repeat destruct Hin as [Hin|Hin]; try done;
    by apply String.eqb_neq in Hin.
Defined.

(** The heart saved by the run in the bare world, and its pixel at the
    tip of the triangle. *)
Lemma heart_in_order_witness :
  main world_bare = Ok tt (final world_bare_dirs) ∧
  Image_open (final world_bare_dirs) image3_path = Some canvas3 ∧
  Image_getpixel canvas3 (200, 330)
  = Some (if draw_polygon heart_triangle true 0 200 330 then heart_fill
          else if draw_ellipse heart_right true 0 200 330 then heart_fill
          else if draw_ellipse heart_left true 0 200 330 then heart_fill
          else black).
Proof.
  destruct heart_in_order as (_ & _ & Hrun & _ & Hpix).
  split; [apply run_bare|]. split.
  - apply (Hrun world_bare), run_bare.
  - apply Hpix; lia.
Defined.

(** Two runs, one where the directory was in use and one from the bare
    root, store the same star. *)
Lemma canvases_deterministic_witness :
  main world_used = Ok tt (final world_used) ∧
  main world_bare = Ok tt (final world_bare_dirs) ∧
  Image_open (final world_used) image2_path
  = Image_open (final world_bare_dirs) image2_path.
Proof.
  split; [apply run_used|]. split; [apply run_bare|].
  apply (canvases_deterministic world_used world_bare _ _ run_used run_bare).
  apply list_elem_of_further, list_elem_of_here.
Defined.

(** The second run in the world the first run from the bare root left. *)
Lemma rerun_idempotent_witness :
  main world_bare = Ok tt (final world_bare_dirs) ∧
  ∃ w'', main (final world_bare_dirs) = Ok tt w'' ∧
         fs w'' = fs (final world_bare_dirs).
Proof.
  split; [apply run_bare|].
  destruct (rerun_idempotent world_bare (final world_bare_dirs) run_bare)
    as (w'' & Hrun & Hfs & _).
  exists w''. by split.
Defined.

(** The notes next to the fixtures, in the world where the directory is
    in use. *)
Lemma others_untouched_witness :
  path_isdir (fs world_used) output_dir = true ∧
  file_at (world_of (main world_used)) "/tmp/test-images/notes.txt" = Some (true, Blob [104; 105]) ∧
  fs (world_of (main world_used)) !! "/tmp/test-images/notes.txt" = Some notes.
Proof.
  assert (Hdir : path_isdir (fs world_used) output_dir = true)
    by (vm_compute; reflexivity).
  assert (Hp : "/tmp/test-images/notes.txt" ∉ [image1_path; image2_path; image3_path]).
  { rewrite !not_elem_of_cons. repeat split; [path_ne..|apply not_elem_of_nil]. }
  destruct (others_untouched world_used _ Hdir Hp) as [Hfile Hnode].
  split; [exact Hdir|]. split.
  - rewrite Hfile. vm_compute; reflexivity.
  - rewrite (Hnode world_used_wf). vm_compute; reflexivity.
Defined.

(** * More with the geometric rasteriser *)




(** A pixel of the circle's outline: it lies in the filled ellipse too. *)
Lemma circle_pixels_witness :
  draw_ellipse circle_box true 0 102 200 = true ∧
  Image_getpixel canvas1 (102, 200) = Some circle_outline.
Proof.
  split; [vm_compute; reflexivity|].
  destruct (circle_pixels 102 200) as [Hpix _]; [lia..|].
  rewrite Hpix. vm_compute; reflexivity.
Defined.

(** A pixel outside the star. *)
Lemma star_pixels_witness :
  draw_polygon star_points true 0 10 10 = false ∧
  Image_getpixel canvas2 (10, 10) = Some black.
Proof.
  assert (Hout : draw_polygon star_points true 0 10 10 = false)
    by (vm_compute; reflexivity).
  split; [exact Hout|].
  destruct (star_pixels 10 10) as [_ Hblack]; [lia..|]. exact (Hblack Hout).
Defined.


Lemma world_clash_wf : fs_wf (fs world_clash).
Proof.
  unfold fs_wf, world_clash; simpl.
  repeat (apply map_Forall_insert_2; [right; vm_compute; reflexivity|]).
  apply map_Forall_empty.
Qed.

(** The run where a file sits at the directory's path. *)
Lemma file_in_the_way_witness :
  fs_wf (fs world_clash) ∧
  main world_clash = Raise FileExistsError world_clash.
Proof.
  split; [apply world_clash_wf|].
  apply (file_in_the_way world_clash true (Blob []) world_clash_wf).
  vm_compute; reflexivity.
Defined.

(** The tree after the run in the world where the directory is in use. *)
Lemma run_keeps_tree_witness :
  fs_wf (fs world_used) ∧ fs_wf (fs (world_of (main world_used))).
Proof.
  split; [apply world_used_wf|]. apply run_keeps_tree, world_used_wf.
Defined.



(** The heart drawn triangle first. *)
Lemma heart_any_order_witness :
  apply_ops blank (reverse heart_ops) = inr canvas3.
Proof. apply heart_any_order, reverse_Permutation. Defined.
